(** * prop-hell: context-scoped props and the hover selection

    A shallow embedding of [src/main.tsx].  The component tree
    App > Table > Row > Cell is built once; every component provides its
    own props to its descendants through a context, and the only mutable
    state is the [app] store written by [hoverCell] and [hoverReset].

    Conventions of the embedding:
    - a TypeScript [number] used as an index is an integer, [Z]; strict
      equality [===] on such numbers is [Z.eqb];
    - a store created by [createStore] is a field of [Stores]; the proxy
      a component holds on a store is the function that reads the field,
      so a reactive expression such as [background()] is a function of
      the current [Stores];
    - [useContext] of a context created without a default yields
      [undefined] outside a provider, and destructuring [undefined]
      throws a TypeError: construction is in [option], [None] being the
      throw. *)

From stdpp Require Import base option list strings.
From Stdlib Require Import ZArith Lia.

Local Open Scope Z_scope.

(** ** Data *)

Record CellSchema := { c_name : string }.

Record RowSchema := { r_name : string; cells : list CellSchema }.

Record TableSchema := { t_name : string; rows : list RowSchema }.

(** [TableProps & TableSchema], [RowProps & RowSchema] and
    [CellProps & CellSchema]: the positional [index] merged with the
    fields of the schema the JSX call spreads in. *)
Record Props (S : Type) := { index : Z; schema : S }.
Arguments index {S} _.
Arguments schema {S} _.

(** [{ index: i, ...s }] *)
Definition mergeProps {S : Type} (i : Z) (s : S) : Props S :=
  {| index := i; schema := s |}.

(** ** App state *)

Record AppContextState := { table : Z; row : Z; cell : Z }.

(** The two stores [App] creates: [app] and [tables]. *)
Record Stores := { app : AppContextState; tables : list TableSchema }.

Record AppContextActions := {
  act_hoverCell : Z -> Z -> Z -> Stores -> Stores;
  act_hoverReset : Stores -> Stores
}.

(** Field assignments on the draft that [produce] hands to its recipe. *)
Definition set_table (v : Z) (a : AppContextState) : AppContextState :=
  {| table := v; row := row a; cell := cell a |}.

Definition set_row (v : Z) (a : AppContextState) : AppContextState :=
  {| table := table a; row := v; cell := cell a |}.

Definition set_cell (v : Z) (a : AppContextState) : AppContextState :=
  {| table := table a; row := row a; cell := v |}.

Definition produce {A : Type} (recipe : A -> A) : A -> A := recipe.

(** The setter of the [app] store: it writes that store and no other. *)
Definition setApp (f : AppContextState -> AppContextState) (st : Stores) : Stores :=
  {| app := f (app st); tables := tables st |}.

Definition hoverCell (t r c : Z) : Stores -> Stores :=
  setApp (produce (fun a => set_cell c (set_row r (set_table t a)))).

Definition hoverReset : Stores -> Stores :=
  setApp (produce (fun a => set_cell (-1) (set_row (-1) (set_table (-1) a)))).

Definition actions : AppContextActions :=
  {| act_hoverCell := hoverCell; act_hoverReset := hoverReset |}.

(** ** Contexts *)

(** The ambient scope a component is constructed in: the value of each
    of the three contexts, [None] outside its provider. *)
Record Scope := {
  AppContext : option ((Stores -> AppContextState) * AppContextActions);
  TableContext : option (Props TableSchema);
  RowContext : option (Props RowSchema)
}.

Definition no_scope : Scope :=
  {| AppContext := None; TableContext := None; RowContext := None |}.

Definition useApp (env : Scope) := AppContext env.
Definition useTable (env : Scope) := TableContext env.
Definition useRow (env : Scope) := RowContext env.

Definition AppContext_Provider (value : (Stores -> AppContextState) * AppContextActions)
    (env : Scope) : Scope :=
  {| AppContext := Some value; TableContext := TableContext env; RowContext := RowContext env |}.

Definition TableContext_Provider (value : Props TableSchema) (env : Scope) : Scope :=
  {| AppContext := AppContext env; TableContext := Some value; RowContext := RowContext env |}.

Definition RowContext_Provider (value : Props RowSchema) (env : Scope) : Scope :=
  {| AppContext := AppContext env; TableContext := TableContext env; RowContext := Some value |}.

(** ** Components *)

(** The [div] a Cell renders: its two pointer handlers, its reactive
    background and its three lines of text. *)
Record CellView := {
  onPointerOver : Stores -> Stores;
  onPointerOut : Stores -> Stores;
  background : Stores -> string;
  text : list string
}.

(** [<For each={each}>{(item, index) => body}</For>] *)
Definition For {A B : Type} (each : list A) (body : A -> Z -> B) : list B :=
  imap (fun i item => body item (Z.of_nat i)) each.

(** Children are constructed in order; a throw in one aborts them all. *)
Definition sequence {A : Type} (l : list (option A)) : option (list A) :=
  mapM id l.

Definition Cell (env : Scope) (props : Props CellSchema) : option CellView :=
  '(app, acts) ← useApp env;
  tbl ← useTable env;
  rw ← useRow env;
  Some {|
    onPointerOver := act_hoverCell acts (index tbl) (index rw) (index props);
    onPointerOut := act_hoverReset acts;
    background := fun st =>
      if (table (app st) =? index tbl)
         && (row (app st) =? index rw)
         && (cell (app st) =? index props)
      then "skyblue" else "none";
    text := ["Table: " +:+ t_name (schema tbl);
             "Row: " +:+ r_name (schema rw);
             "Cell: " +:+ c_name (schema props)]
  |}.

Definition Row (env : Scope) (props : Props RowSchema) : option (list CellView) :=
  let env' := RowContext_Provider props env in
  sequence (For (cells (schema props)) (fun cell index => Cell env' (mergeProps index cell))).

Definition Table (env : Scope) (props : Props TableSchema) : option (list (list CellView)) :=
  let env' := TableContext_Provider props env in
  sequence (For (rows (schema props)) (fun row index => Row env' (mergeProps index row))).

Record Mounted := {
  stores : Stores;
  view : list (list (list CellView))
}.

Definition App (data : list TableSchema) : option Mounted :=
  let st0 := {| app := {| table := -1; row := -1; cell := -1 |}; tables := data |} in
  let env := AppContext_Provider (app, actions) no_scope in
  v ← sequence (For (tables st0) (fun table index => Table env (mergeProps index table)));
  Some {| stores := st0; view := v |}.

(** ** Observations *)

(** A Cell reports highlighted when its background is the highlight colour. *)
Definition highlighted (v : CellView) (st : Stores) : bool :=
  bool_decide (background v st = "skyblue").

Definition rendered_cells (vw : list (list (list CellView))) : list CellView :=
  mjoin (mjoin <$> vw).

(** How many of the Cells [vs] report highlighted in state [st]. *)
Definition count_highlighted (st : Stores) (vs : list CellView) : nat :=
  length (filter (fun v => highlighted v st = true) vs).

Definition cell_at (vw : list (list (list CellView))) (i j k : nat) : option CellView :=
  tv ← vw !! i; rv ← tv !! j; rv !! k.

(** The explicit props a parent hands to its children. *)
Definition Table_children (props : Props TableSchema) : list (Props RowSchema) :=
  For (rows (schema props)) (fun row index => mergeProps index row).

Definition Row_children (props : Props RowSchema) : list (Props CellSchema) :=
  For (cells (schema props)) (fun cell index => mergeProps index cell).

(** The scope of the Cells of row [j] of table [i], as [App], [Table]
    and [Row] provide it. *)
Definition cell_scope (i : nat) (tb : TableSchema) (j : nat) (rw : RowSchema) : Scope :=
  RowContext_Provider (mergeProps (Z.of_nat j) rw)
    (TableContext_Provider (mergeProps (Z.of_nat i) tb)
       (AppContext_Provider (app, actions) no_scope)).

(** ** Event sequences *)

Inductive action := HoverCell (t r c : Z) | HoverReset.

Definition step (st : Stores) (a : action) : Stores :=
  match a with
  | HoverCell t r c => hoverCell t r c st
  | HoverReset => hoverReset st
  end.

Definition run (acts : list action) (st : Stores) : Stores :=
  fold_left step acts st.

(** ** The Selection invariant *)

Definition all_none (a : AppContextState) : Prop :=
  table a = -1 /\ row a = -1 /\ cell a = -1.

(** [(t, r, c)] is the coordinate of a cell of the dataset. *)
Definition in_bounds (data : list TableSchema) (t r c : Z) : Prop :=
  0 <= t /\ 0 <= r /\ 0 <= c /\
  exists tb rw cl,
    data !! Z.to_nat t = Some tb /\
    rows tb !! Z.to_nat r = Some rw /\
    cells rw !! Z.to_nat c = Some cl.

Definition selection_inv (st : Stores) : Prop :=
  all_none (app st) \/
  in_bounds (tables st) (table (app st)) (row (app st)) (cell (app st)).

Definition valid_action (data : list TableSchema) (a : action) : Prop :=
  match a with
  | HoverCell t r c => in_bounds data t r c
  | HoverReset => True
  end.

(** The scenario of the specification. *)
Definition scenario : list TableSchema :=
  [ {| t_name := "T0";
       rows := [ {| r_name := "R0";
                    cells := [ {| c_name := "C0" |}; {| c_name := "C1" |} ] |} ] |} ].

(** The reading of "the parent passes the child only its position": the
    props a child receives are determined by the number of entries of the
    parent, whatever the entries themselves hold. *)
Definition Table_passes_position_only : Prop :=
  forall p p' : Props TableSchema,
    index p = index p' ->
    length (rows (schema p)) = length (rows (schema p')) ->
    Table_children p = Table_children p'.

Definition Row_passes_position_only : Prop :=
  forall p p' : Props RowSchema,
    index p = index p' ->
    length (cells (schema p)) = length (cells (schema p')) ->
    Row_children p = Row_children p'.

Definition passes_position_only : Prop :=
  Table_passes_position_only /\ Row_passes_position_only.

(** Two rows and two tables that differ in the names they hold only. *)
Definition row_a : RowSchema :=
  {| r_name := "Ra"; cells := [ {| c_name := "Ca" |} ] |}.

Definition row_b : RowSchema :=
  {| r_name := "Rb"; cells := [ {| c_name := "Cb" |} ] |}.

Definition table_a : TableSchema := {| t_name := "T"; rows := [ row_a ] |}.

Definition table_b : TableSchema := {| t_name := "T"; rows := [ row_b ] |}.

(** ** Pointer events *)

(** The two events a Cell's [div] listens to; the target is the rendered
    Cell whose handler the event reaches. *)
Inductive event := PointerOver (target : CellView) | PointerOut (target : CellView).

Definition target (e : event) : CellView :=
  match e with
  | PointerOver v => v
  | PointerOut v => v
  end.



(** * Properties *)

(** ** The two mutators *)

Section Mutators.
Implicit Types (st : Stores) (t r c : Z).

Lemma tables_step st a : tables (step st a) = tables st.
Proof. destruct a; reflexivity. Qed.

Lemma tables_run acts : forall st, tables (run acts st) = tables st.
Proof.
  induction acts as [|a acts IH]; intros st; simpl; [reflexivity|].
  unfold run in IH. rewrite IH. apply tables_step.
Qed.
End Mutators.

(** C4: for every state and every arguments, in bounds or not,
    [hoverCell t r c] returns a state whose Selection is exactly
    [(t, r, c)] and [hoverReset] returns a state whose Selection is
    [(-1, -1, -1)]; both are total, each call has a result. *)
Theorem mutators_overwrite_unconditionally :
  forall (st : Stores) (t r c : Z),
    (exists st', hoverCell t r c st = st' /\
       table (app st') = t /\ row (app st') = r /\ cell (app st') = c) /\
    (exists st', hoverReset st = st' /\
       table (app st') = -1 /\ row (app st') = -1 /\ cell (app st') = -1).
Proof.
  intros st t r c. split; eexists; (split; [reflexivity|]); simpl; auto.
Qed.

(** C6: both mutators are idempotent: a second [hoverReset] and a
    second [hoverCell t r c] leave the state as the first left it, so
    the Selection is unchanged and every Cell's background, hence its
    highlight flag, is unchanged. *)
Theorem mutators_idempotent :
  forall (st : Stores) (t r c : Z),
    hoverReset (hoverReset st) = hoverReset st /\
    all_none (app (hoverReset (hoverReset st))) /\
    hoverCell t r c (hoverCell t r c st) = hoverCell t r c st /\
    app (hoverCell t r c (hoverCell t r c st)) = app (hoverCell t r c st) /\
    (forall v : CellView,
       background v (hoverCell t r c (hoverCell t r c st))
         = background v (hoverCell t r c st) /\
       highlighted v (hoverCell t r c (hoverCell t r c st))
         = highlighted v (hoverCell t r c st)).
Proof.
  intros st t r c.
  assert (Hc : hoverCell t r c (hoverCell t r c st) = hoverCell t r c st)
    by reflexivity.
  repeat split; try reflexivity; intros; rewrite Hc; reflexivity.
Qed.

(** C7: from every state, [hoverCell t r c] followed by [hoverReset]
    ends with the Selection all none. *)
Theorem enter_then_leave_unselects :
  forall (st : Stores) (t r c : Z),
    app (hoverReset (hoverCell t r c st))
      = {| table := -1; row := -1; cell := -1 |} /\
    all_none (app (run [HoverCell t r c; HoverReset] st)).
Proof.
  intros st t r c. split; [reflexivity|]. repeat split.
Qed.

(** C9: no sequence of [hoverCell] and [hoverReset] calls changes the
    dataset held in the [tables] store; each mutator writes the [app]
    store only. *)
Theorem dataset_never_mutated :
  forall (acts : list action) (st : Stores),
    tables (run acts st) = tables st /\
    (forall t r c, tables (hoverCell t r c st) = tables st) /\
    tables (hoverReset st) = tables st.
Proof.
  intros acts st. split; [apply tables_run|]. split; reflexivity.
Qed.

(** C10: [hoverCell (-1) (-1) (-1)] and [hoverReset] are the same
    function of the state, so they give the same Selection and the same
    highlight flag on every Cell. *)
Theorem hoverCell_sentinel_is_reset :
  forall st : Stores,
    hoverCell (-1) (-1) (-1) st = hoverReset st /\
    app (hoverCell (-1) (-1) (-1) st) = app (hoverReset st) /\
    (forall v : CellView,
       highlighted v (hoverCell (-1) (-1) (-1) st) = highlighted v (hoverReset st)).
Proof.
  intros st. repeat split.
Qed.

(** ** Construction of the tree *)

Section Construction.
Context {A B : Type}.
Implicit Types (each : list A) (body : A -> Z -> option B).

Lemma For_lookup {C : Type} each (f : A -> Z -> C) (i : nat) :
  For each f !! i = (fun x => f x (Z.of_nat i)) <$> each !! i.
Proof. unfold For. apply list_lookup_imap. Qed.

Lemma sequence_For_length each body ys :
  sequence (For each body) = Some ys -> length ys = length each.
Proof.
  intros H. apply length_mapM in H. unfold For in H.
  rewrite length_imap in H. congruence.
Qed.

Lemma sequence_For_lookup each body ys (i : nat) y :
  sequence (For each body) = Some ys ->
  ys !! i = Some y ->
  exists x, each !! i = Some x /\ body x (Z.of_nat i) = Some y.
Proof.
  intros H Hy. apply mapM_Some_1 in H.
  destruct (Forall2_lookup_r _ _ _ _ _ H Hy) as (o & Ho & Hoy).
  rewrite For_lookup in Ho. simpl in Hoy. subst o.
  destruct (each !! i) as [x|]; simpl in Ho; [|discriminate].
  exists x. split; [reflexivity|]. congruence.
Qed.

Lemma sequence_For_is_Some each body :
  (forall (i : nat) x, each !! i = Some x -> is_Some (body x (Z.of_nat i))) ->
  is_Some (sequence (For each body)).
Proof.
  intros H. apply mapM_is_Some_2, Forall_lookup_2.
  intros i o Ho. rewrite For_lookup in Ho.
  destruct (each !! i) as [x|] eqn:Hx; simpl in Ho; [|discriminate].
  injection Ho as <-. simpl. eauto.
Qed.
End Construction.

(** ** What a constructed Cell is *)

Lemma Cell_inv env props v :
  Cell env props = Some v ->
  exists a acts tp rp,
    AppContext env = Some (a, acts) /\
    TableContext env = Some tp /\
    RowContext env = Some rp /\
    onPointerOver v = act_hoverCell acts (index tp) (index rp) (index props) /\
    onPointerOut v = act_hoverReset acts /\
    (forall st, highlighted v st =
       (table (a st) =? index tp) && (row (a st) =? index rp)
       && (cell (a st) =? index props)) /\
    text v = ["Table: " +:+ t_name (schema tp);
              "Row: " +:+ r_name (schema rp);
              "Cell: " +:+ c_name (schema props)].
Proof.
  unfold Cell, useApp, useTable, useRow.
  destruct (AppContext env) as [[a acts]|]; simpl; [|discriminate].
  destruct (TableContext env) as [tp|]; simpl; [|discriminate].
  destruct (RowContext env) as [rp|]; simpl; [|discriminate].
  intros [= <-]. exists a, acts, tp, rp. simpl.
  repeat split. intros st. unfold highlighted. simpl.
  destruct ((table (a st) =? index tp) && (row (a st) =? index rp)
            && (cell (a st) =? index props)); reflexivity.
Qed.

Lemma Cell_is_Some env props :
  is_Some (AppContext env) -> is_Some (TableContext env) ->
  is_Some (RowContext env) -> is_Some (Cell env props).
Proof.
  intros [[a acts] Ha] [tp Ht] [rp Hr].
  unfold Cell, useApp, useTable, useRow. rewrite Ha, Ht, Hr. simpl. eauto.
Qed.

Lemma Row_is_Some env props :
  is_Some (AppContext env) -> is_Some (TableContext env) ->
  is_Some (Row env props).
Proof.
  intros Ha Ht. apply sequence_For_is_Some. intros i x _.
  apply Cell_is_Some; simpl; eauto.
Qed.

Lemma Table_is_Some env props :
  is_Some (AppContext env) -> is_Some (Table env props).
Proof.
  intros Ha. apply sequence_For_is_Some. intros i x _.
  apply Row_is_Some; simpl; eauto.
Qed.

(** [App] provides every context its descendants read: mounting never throws. *)
Lemma App_total data : exists m, App data = Some m /\ stores m =
  {| app := {| table := -1; row := -1; cell := -1 |}; tables := data |}.
Proof.
  unfold App.
  destruct (sequence_For_is_Some data
              (fun tb ix => Table (AppContext_Provider (app, actions) no_scope)
                              (mergeProps ix tb))) as [v Hv].
  { intros i x _. apply Table_is_Some. simpl. eauto. }
  simpl. rewrite Hv. simpl. eauto.
Qed.

Lemma App_stores data m :
  App data = Some m ->
  stores m = {| app := {| table := -1; row := -1; cell := -1 |}; tables := data |}.
Proof.
  intros H. destruct (App_total data) as (m' & Hm' & Hs). congruence.
Qed.

(** The Cell rendered at position [(i, j, k)] of the view is the one
    constructed for entry [k] of row [j] of table [i], in the scope where
    the ambient Table index is [i] and the ambient Row index is [j]. *)
Lemma rendered_cell data m (i j k : nat) v :
  App data = Some m ->
  cell_at (view m) i j k = Some v ->
  exists tb rw cl,
    data !! i = Some tb /\ rows tb !! j = Some rw /\ cells rw !! k = Some cl /\
    Cell (cell_scope i tb j rw) (mergeProps (Z.of_nat k) cl) = Some v.
Proof.
  unfold App, cell_at. simpl.
  destruct (sequence _) as [vw|] eqn:Hvw; simpl; [|discriminate].
  intros [= <-]. simpl.
  destruct (vw !! i) as [tv|] eqn:Htv; simpl; [|discriminate].
  destruct (tv !! j) as [rv|] eqn:Hrv; simpl; [|discriminate].
  intros Hv.
  destruct (sequence_For_lookup _ _ _ _ _ Hvw Htv) as (tb & Htb & HT).
  destruct (sequence_For_lookup _ _ _ _ _ HT Hrv) as (rw & Hrw & HR).
  destruct (sequence_For_lookup _ _ _ _ _ HR Hv) as (cl & Hcl & HC).
  exists tb, rw, cl. auto.
Qed.

Lemma rendered_cell_exists data m (i j k : nat) tb rw cl :
  App data = Some m ->
  data !! i = Some tb -> rows tb !! j = Some rw -> cells rw !! k = Some cl ->
  exists tv rv v,
    view m !! i = Some tv /\ tv !! j = Some rv /\ rv !! k = Some v.
Proof.
  unfold App. simpl.
  destruct (sequence _) as [vw|] eqn:Hvw; simpl; [|discriminate].
  intros [= <-] Htb Hrw Hcl. simpl.
  destruct (lookup_lt_is_Some_2 vw i) as [tv Htv].
  { rewrite (sequence_For_length _ _ _ Hvw). eapply lookup_lt_Some; eauto. }
  destruct (sequence_For_lookup _ _ _ _ _ Hvw Htv) as (tb' & Htb' & HT).
  assert (tb' = tb) by congruence. subst tb'.
  destruct (lookup_lt_is_Some_2 tv j) as [rv Hrv].
  { rewrite (sequence_For_length _ _ _ HT). eapply lookup_lt_Some; eauto. }
  destruct (sequence_For_lookup _ _ _ _ _ HT Hrv) as (rw' & Hrw' & HR).
  simpl in Hrw'. assert (rw' = rw) by congruence. subst rw'.
  destruct (lookup_lt_is_Some_2 rv k) as [v Hv].
  { rewrite (sequence_For_length _ _ _ HR). eapply lookup_lt_Some; eauto. }
  exists tv, rv, v. auto.
Qed.

(** The highlight flag of the Cell at position [(i, j, k)]. *)
Lemma rendered_highlighted data m (i j k : nat) v st :
  App data = Some m ->
  cell_at (view m) i j k = Some v ->
  highlighted v st =
    (table (app st) =? Z.of_nat i) && (row (app st) =? Z.of_nat j)
    && (cell (app st) =? Z.of_nat k).
Proof.
  intros Hm Hv.
  destruct (rendered_cell _ _ _ _ _ _ Hm Hv) as (tb & rw & cl & _ & _ & _ & HC).
  destruct (Cell_inv _ _ _ HC) as (a & acts & tp & rp & Ha & Ht & Hr & _ & _ & Hh & _).
  simpl in Ha, Ht, Hr. injection Ha as <- <-. injection Ht as <-. injection Hr as <-.
  rewrite Hh. reflexivity.
Qed.

Lemma elem_of_rendered_cells vw v :
  v ∈ rendered_cells vw <-> exists i j k, cell_at vw i j k = Some v.
Proof.
  unfold rendered_cells, cell_at. rewrite list_elem_of_join. split.
  - intros (l & Hv & Hl). apply list_elem_of_fmap in Hl as (tv & -> & Htv).
    apply list_elem_of_join in Hv as (rv & Hv & Hrv).
    apply list_elem_of_lookup in Htv as (i & Hi).
    apply list_elem_of_lookup in Hrv as (j & Hj).
    apply list_elem_of_lookup in Hv as (k & Hk).
    exists i, j, k. rewrite Hi. simpl. rewrite Hj. simpl. exact Hk.
  - intros (i & j & k & H).
    destruct (vw !! i) as [tv|] eqn:Hi; simpl in H; [|discriminate].
    destruct (tv !! j) as [rv|] eqn:Hj; simpl in H; [|discriminate].
    exists (mjoin tv). split.
    + apply list_elem_of_join. exists rv.
      split; eapply list_elem_of_lookup_2; eauto.
    + apply list_elem_of_fmap. exists tv. split; [reflexivity|].
      eapply list_elem_of_lookup_2; eauto.
Qed.

(** ** Counting the elements of a nested list that satisfy a predicate *)

Section Counting.
Context {V : Type} (P : V -> Prop) `{!forall x, Decision (P x)}.

Lemma filter_none (vs : list V) :
  (forall v, v ∈ vs -> ~ P v) -> filter P vs = [].
Proof.
  induction vs as [|x vs IH]; intros Hall; [reflexivity|].
  rewrite filter_cons_False by (apply Hall; left).
  apply IH. intros v Hv. apply Hall. right. exact Hv.
Qed.

Lemma filter_single (vs : list V) : forall (c : nat) v0,
  vs !! c = Some v0 -> P v0 ->
  (forall (k : nat) v, vs !! k = Some v -> k <> c -> ~ P v) ->
  length (filter P vs) = 1%nat.
Proof.
  induction vs as [|x vs IH]; intros c v0 Hc Hv0 Hne; [destruct c; discriminate|].
  destruct c as [|c]; simpl in Hc.
  - injection Hc as ->. rewrite filter_cons_True by assumption.
    rewrite filter_none; [reflexivity|].
    intros v Hv. apply list_elem_of_lookup in Hv as (k & Hk).
    apply (Hne (S k)); [exact Hk|discriminate].
  - rewrite filter_cons_False by (apply (Hne 0%nat); [reflexivity|discriminate]).
    apply (IH c v0); [exact Hc|exact Hv0|].
    intros k v Hk Hkc. apply (Hne (S k)); [exact Hk|congruence].
Qed.

Lemma filter_join_single (vss : list (list V)) : forall (r : nat) vs0,
  vss !! r = Some vs0 ->
  (forall (j : nat) vs, vss !! j = Some vs -> j <> r -> filter P vs = []) ->
  filter P (mjoin vss) = filter P vs0.
Proof.
  induction vss as [|x vss IH]; intros r vs0 Hr Hne; [destruct r; discriminate|].
  simpl. rewrite filter_app. destruct r as [|r]; simpl in Hr.
  - injection Hr as ->.
    assert (Hrest : filter P (mjoin vss) = []).
    { apply filter_none. intros v Hv Pv.
      apply list_elem_of_join in Hv as (l & Hvl & Hl).
      apply list_elem_of_lookup in Hl as (j & Hj).
      assert (Hnil : filter P l = []) by (apply (Hne (S j)); [exact Hj|discriminate]).
      eapply filter_nil_not_elem_of; eauto. }
    rewrite Hrest. apply app_nil_r.
  - rewrite (Hne 0%nat x) by (reflexivity || discriminate). simpl.
    apply (IH r); [exact Hr|].
    intros j vs Hj Hjr. apply (Hne (S j)); [exact Hj|congruence].
Qed.
End Counting.

(** ** Highlighting *)

Lemma eqb3_true (a b c x y z : Z) :
  (a =? x) && (b =? y) && (c =? z) = true <-> x = a /\ y = b /\ z = c.
Proof.
  rewrite !andb_true_iff, !Z.eqb_eq. intuition congruence.
Qed.

Lemma rendered_highlighted_iff data m (i j k : nat) v st :
  App data = Some m ->
  cell_at (view m) i j k = Some v ->
  (highlighted v st = true <->
   table (app st) = Z.of_nat i /\ row (app st) = Z.of_nat j /\
   cell (app st) = Z.of_nat k).
Proof.
  intros Hm Hv. rewrite (rendered_highlighted _ _ _ _ _ _ _ Hm Hv).
  rewrite eqb3_true. intuition congruence.
Qed.

(** When the Selection is the coordinate of a cell of the dataset, the
    Cell at that position is highlighted and it is the only one. *)
Lemma count_highlighted_selected data m st :
  App data = Some m ->
  in_bounds data (table (app st)) (row (app st)) (cell (app st)) ->
  (exists v,
     cell_at (view m) (Z.to_nat (table (app st))) (Z.to_nat (row (app st)))
       (Z.to_nat (cell (app st))) = Some v /\
     highlighted v st = true) /\
  count_highlighted st (rendered_cells (view m)) = 1%nat.
Proof.
  intros Hm (Ht & Hr & Hc & tb & rw & cl & Htb & Hrw & Hcl).
  pose proof (fun i j k v => rendered_highlighted_iff data m i j k v st Hm) as Hflag.
  destruct (rendered_cell_exists _ _ _ _ _ _ _ _ Hm Htb Hrw Hcl)
    as (tv & rv & v0 & Htv & Hrv & Hv0).
  set (t := table (app st)) in *. set (r := row (app st)) in *.
  set (c := cell (app st)) in *.
  assert (Hat0 : cell_at (view m) (Z.to_nat t) (Z.to_nat r) (Z.to_nat c) = Some v0).
  { unfold cell_at. rewrite Htv. simpl. rewrite Hrv. simpl. exact Hv0. }
  assert (Hhl0 : highlighted v0 st = true).
  { apply (Hflag _ _ _ _ Hat0). rewrite !Z2Nat.id by assumption. auto. }
  split; [eauto|].
  unfold count_highlighted, rendered_cells.
  rewrite (filter_join_single _ _ (Z.to_nat t) (mjoin tv)).
  - rewrite (filter_join_single _ _ (Z.to_nat r) rv); [|exact Hrv|].
    + apply (filter_single _ _ (Z.to_nat c) v0); [exact Hv0|exact Hhl0|].
      intros k v Hk Hne Hh.
      assert (Hat : cell_at (view m) (Z.to_nat t) (Z.to_nat r) k = Some v).
      { unfold cell_at. rewrite Htv. simpl. rewrite Hrv. simpl. exact Hk. }
      apply (Hflag _ _ _ _ Hat) in Hh. lia.
    + intros j rv' Hj Hne. apply filter_none. intros v Hv Hh.
      apply list_elem_of_lookup in Hv as (k & Hk).
      assert (Hat : cell_at (view m) (Z.to_nat t) j k = Some v).
      { unfold cell_at. rewrite Htv. simpl. rewrite Hj. simpl. exact Hk. }
      apply (Hflag _ _ _ _ Hat) in Hh. lia.
  - rewrite list_lookup_fmap, Htv. reflexivity.
  - intros i l Hi Hne. rewrite list_lookup_fmap in Hi.
    destruct (view m !! i) as [tv'|] eqn:Htv'; simpl in Hi; [|discriminate].
    injection Hi as <-. apply filter_none. intros v Hv Hh.
    apply list_elem_of_join in Hv as (rv' & Hv & Hrv').
    apply list_elem_of_lookup in Hrv' as (j & Hj).
    apply list_elem_of_lookup in Hv as (k & Hk).
    assert (Hat : cell_at (view m) i j k = Some v).
    { unfold cell_at. rewrite Htv'. simpl. rewrite Hj. simpl. exact Hk. }
    apply (Hflag _ _ _ _ Hat) in Hh. lia.
Qed.

(** When the Selection is all none, no rendered Cell is highlighted:
    the indices [For] hands out are never negative. *)
Lemma not_highlighted_none data m st v :
  App data = Some m ->
  all_none (app st) ->
  v ∈ rendered_cells (view m) ->
  highlighted v st = false.
Proof.
  intros Hm (Ht & Hr & Hc) Hv.
  apply elem_of_rendered_cells in Hv as (i & j & k & Hv).
  rewrite (rendered_highlighted _ _ _ _ _ _ _ Hm Hv), Ht.
  replace (-1 =? Z.of_nat i) with false by (symmetry; apply Z.eqb_neq; lia).
  reflexivity.
Qed.

Lemma count_highlighted_none data m st :
  App data = Some m ->
  all_none (app st) ->
  count_highlighted st (rendered_cells (view m)) = 0%nat.
Proof.
  intros Hm Hn. unfold count_highlighted. rewrite filter_none; [reflexivity|].
  intros v Hv. rewrite (not_highlighted_none _ _ _ _ Hm Hn Hv). discriminate.
Qed.

(** C1: once the tree is mounted, for every coordinate [(t, r, c)] of a
    cell of the dataset and every state, after [hoverCell t r c] the Cell
    rendered at a position reports highlighted exactly when that position
    is [(t, r, c)]; there is a Cell at that position, and exactly one of
    all rendered Cells reports highlighted.  The Cell at position
    [(i, j, k)] is the one constructed with ambient Table index [i],
    ambient Row index [j] and own index [k], and in every state its flag
    is true iff the three Selection fields equal these three indices. *)
Theorem hoverCell_highlights_exactly_one :
  forall (data : list TableSchema) (m : Mounted) (st : Stores) (t r c : Z),
    App data = Some m ->
    in_bounds data t r c ->
    (forall (i j k : nat) v,
       cell_at (view m) i j k = Some v ->
       (highlighted v (hoverCell t r c st) = true <->
        Z.of_nat i = t /\ Z.of_nat j = r /\ Z.of_nat k = c)) /\
    (exists v,
       cell_at (view m) (Z.to_nat t) (Z.to_nat r) (Z.to_nat c) = Some v /\
       highlighted v (hoverCell t r c st) = true) /\
    count_highlighted (hoverCell t r c st) (rendered_cells (view m)) = 1%nat /\
    (forall (i j k : nat) v,
       cell_at (view m) i j k = Some v ->
       exists tb rw cl,
         Cell (cell_scope i tb j rw) (mergeProps (Z.of_nat k) cl) = Some v /\
         useTable (cell_scope i tb j rw) = Some (mergeProps (Z.of_nat i) tb) /\
         useRow (cell_scope i tb j rw) = Some (mergeProps (Z.of_nat j) rw) /\
         forall st',
           highlighted v st' = true <->
           table (app st') = Z.of_nat i /\ row (app st') = Z.of_nat j /\
           cell (app st') = Z.of_nat k).
Proof.
  intros data m st t r c Hm Hb.
  assert (Hflag : forall (i j k : nat) v,
            cell_at (view m) i j k = Some v ->
            (highlighted v (hoverCell t r c st) = true <->
             Z.of_nat i = t /\ Z.of_nat j = r /\ Z.of_nat k = c)).
  { intros i j k v Hv. rewrite (rendered_highlighted_iff _ _ _ _ _ _ _ Hm Hv).
    simpl. intuition congruence. }
  destruct (count_highlighted_selected data m (hoverCell t r c st) Hm Hb)
    as (Hex & Hcount).
  split; [exact Hflag|]. split; [exact Hex|]. split; [exact Hcount|].
  intros i j k v Hv.
  destruct (rendered_cell _ _ _ _ _ _ Hm Hv) as (tb' & rw' & cl' & _ & _ & _ & HC).
  exists tb', rw', cl'. split; [exact HC|]. split; [reflexivity|].
  split; [reflexivity|]. intros st'.
  apply (rendered_highlighted_iff _ _ _ _ _ _ _ Hm Hv).
Qed.

(** Witness of C1 on the scenario of the specification: pointer-enter on
    the second cell. *)
Lemma hoverCell_highlights_exactly_one_witness :
  exists m,
    App scenario = Some m /\
    in_bounds scenario 0 0 1 /\
    count_highlighted (hoverCell 0 0 1 (stores m)) (rendered_cells (view m)) = 1%nat.
Proof.
  eexists. split; [reflexivity|].
  assert (Hb : in_bounds scenario 0 0 1).
  { unfold in_bounds. repeat split; try lia. do 3 eexists. repeat split. }
  split; [exact Hb|].
  refine (proj1 (proj2 (proj2
    (hoverCell_highlights_exactly_one scenario _ _ 0 0 1 eq_refl Hb)))).
Defined.

(** C5: once the tree is mounted, no rendered Cell reports highlighted
    after [hoverReset] in any state, nor in the initial state, whatever
    the dataset: every index a Cell compares with is a position, which is
    never [-1]. *)
Theorem no_highlight_when_unselected :
  forall (data : list TableSchema) (m : Mounted),
    App data = Some m ->
    (forall v, v ∈ rendered_cells (view m) ->
       (forall st, highlighted v (hoverReset st) = false) /\
       highlighted v (stores m) = false) /\
    (forall st, count_highlighted (hoverReset st) (rendered_cells (view m)) = 0%nat) /\
    count_highlighted (stores m) (rendered_cells (view m)) = 0%nat.
Proof.
  intros data m Hm.
  assert (Hinit : all_none (app (stores m))).
  { rewrite (App_stores _ _ Hm). repeat split. }
  assert (Hreset : forall st, all_none (app (hoverReset st))) by (repeat split).
  split; [|split].
  - intros v Hv. split.
    + intros st. eapply not_highlighted_none; eauto.
    + eapply not_highlighted_none; eauto.
  - intros st. eapply count_highlighted_none; eauto.
  - eapply count_highlighted_none; eauto.
Qed.

Lemma no_highlight_when_unselected_witness :
  exists m,
    App scenario = Some m /\
    count_highlighted (stores m) (rendered_cells (view m)) = 0%nat.
Proof.
  eexists. split; [reflexivity|].
  refine (proj2 (proj2 (no_highlight_when_unselected scenario _ eq_refl))).
Defined.

(** ** The Selection invariant *)

Lemma step_selection_inv data st a :
  tables st = data -> valid_action data a -> selection_inv (step st a).
Proof.
  intros Hd Ha. destruct a as [t r c|]; simpl in *.
  - right. simpl. rewrite Hd. exact Ha.
  - left. repeat split.
Qed.

Lemma run_selection_inv data acts : forall st,
  tables st = data -> selection_inv st ->
  Forall (valid_action data) acts ->
  selection_inv (run acts st).
Proof.
  induction acts as [|a acts IH]; intros st Hd Hinv Hv; [exact Hinv|].
  inversion Hv as [|? ? Ha Hacts]; subst. simpl.
  apply IH; [|eapply step_selection_inv; eauto|exact Hacts].
  apply tables_step.
Qed.

(** C3: in the state [App] mounts with, and after every sequence of
    [hoverCell] and [hoverReset] calls whose [hoverCell] arguments are
    non-negative coordinates of cells of the dataset, the three Selection
    fields are all [-1], and no rendered Cell is highlighted, or they are
    the coordinate of a cell of the dataset, and exactly one rendered Cell
    is highlighted. *)
Theorem selection_invariant :
  forall (data : list TableSchema) (m : Mounted) (acts : list action),
    App data = Some m ->
    Forall (valid_action data) acts ->
    selection_inv (stores m) /\
    selection_inv (run acts (stores m)) /\
    ((all_none (app (run acts (stores m))) /\
      count_highlighted (run acts (stores m)) (rendered_cells (view m)) = 0%nat)
     \/
     (in_bounds data (table (app (run acts (stores m))))
        (row (app (run acts (stores m)))) (cell (app (run acts (stores m)))) /\
      count_highlighted (run acts (stores m)) (rendered_cells (view m)) = 1%nat)).
Proof.
  intros data m acts Hm Hv.
  assert (Hinit : selection_inv (stores m)).
  { left. rewrite (App_stores _ _ Hm). repeat split. }
  assert (Hd : tables (stores m) = data).
  { rewrite (App_stores _ _ Hm). reflexivity. }
  assert (Hinv : selection_inv (run acts (stores m))).
  { apply (run_selection_inv data); assumption. }
  split; [exact Hinit|]. split; [exact Hinv|].
  destruct Hinv as [Hn|Hb].
  - left. split; [exact Hn|]. eapply count_highlighted_none; eauto.
  - right. rewrite tables_run, Hd in Hb. split; [exact Hb|].
    apply (count_highlighted_selected data m _ Hm Hb).
Qed.

Lemma selection_invariant_witness :
  exists m,
    App scenario = Some m /\
    Forall (valid_action scenario) [HoverCell 0 0 1; HoverReset; HoverCell 0 0 0] /\
    selection_inv (run [HoverCell 0 0 1; HoverReset; HoverCell 0 0 0] (stores m)).
Proof.
  eexists. split; [reflexivity|].
  assert (Hv : Forall (valid_action scenario)
                 [HoverCell 0 0 1; HoverReset; HoverCell 0 0 0]).
  { repeat constructor; simpl; try lia; do 3 eexists; repeat split. }
  split; [exact Hv|].
  refine (proj1 (proj2 (selection_invariant scenario _ _ eq_refl Hv))).
Defined.

(** ** Construction outside a provider *)

(** C8: a Cell constructed where the App, Table or Row context has no
    provider is not constructed: the construction throws. *)
Theorem Cell_outside_scope_throws :
  forall (env : Scope) (props : Props CellSchema),
    AppContext env = None \/ TableContext env = None \/ RowContext env = None ->
    Cell env props = None.
Proof.
  intros env props H. unfold Cell, useApp, useTable, useRow.
  destruct (AppContext env) as [[a acts]|]; simpl; [|reflexivity].
  destruct (TableContext env) as [tp|]; simpl; [|reflexivity].
  destruct (RowContext env) as [rp|]; simpl; [|reflexivity].
  destruct H as [H|[H|H]]; discriminate.
Qed.

Lemma Cell_outside_scope_throws_witness :
  TableContext (AppContext_Provider (app, actions) no_scope) = None /\
  Cell (AppContext_Provider (app, actions) no_scope)
       (mergeProps 0 {| c_name := "C0" |}) = None.
Proof.
  split; [reflexivity|].
  apply Cell_outside_scope_throws. right. left. reflexivity.
Defined.

(** ** What a parent passes to its children *)

Lemma sequence_For_children {A B : Type} (each : list A)
    (f : Props A -> option B) :
  sequence (For each (fun x ix => f (mergeProps ix x)))
  = sequence (f <$> For each (fun x ix => mergeProps ix x)).
Proof.
  unfold For. rewrite fmap_imap. reflexivity.
Qed.

(** Counterexample to C2 as stated: two tables with one row each, whose
    rows differ in the names they hold, hand different props to their Row
    child, and the two rows hand different props to their Cell child; the
    entry's own name and sub-sequence are in the props. *)
Lemma children_receive_more_than_position :
  Table_children (mergeProps 0 table_a)
    = [ {| index := 0;
           schema := {| r_name := "Ra"; cells := [ {| c_name := "Ca" |} ] |} |} ] /\
  Row_children (mergeProps 0 row_a)
    = [ {| index := 0; schema := {| c_name := "Ca" |} |} ] /\
  ~ Table_passes_position_only /\
  ~ Row_passes_position_only /\
  ~ passes_position_only.
Proof.
  assert (HT : ~ Table_passes_position_only).
  { intros H.
    specialize (H (mergeProps 0 table_a) (mergeProps 0 table_b) eq_refl eq_refl).
    discriminate H. }
  assert (HR : ~ Row_passes_position_only).
  { intros H.
    specialize (H (mergeProps 0 row_a) (mergeProps 0 row_b) eq_refl eq_refl).
    discriminate H. }
  repeat split; try assumption. intros [H _]. exact (HT H).
Qed.

(** C2, amended: [Table] constructs one Row per entry of its [rows], and
    [Row] one Cell per entry of its [cells], in its own provider; the
    props of the child at position [i] are that position together with
    the entry itself, its name and its sub-sequence spread in. *)
Theorem children_receive_index_and_schema :
  (forall env (p : Props TableSchema),
     Table env p = sequence (Row (TableContext_Provider p env) <$> Table_children p)) /\
  (forall (p : Props TableSchema) (i : nat),
     Table_children p !! i
     = (fun e => {| index := Z.of_nat i; schema := e |}) <$> rows (schema p) !! i) /\
  (forall env (p : Props RowSchema),
     Row env p = sequence (Cell (RowContext_Provider p env) <$> Row_children p)) /\
  (forall (p : Props RowSchema) (i : nat),
     Row_children p !! i
     = (fun e => {| index := Z.of_nat i; schema := e |}) <$> cells (schema p) !! i).
Proof.
  repeat split.
  - intros env p. apply sequence_For_children.
  - intros p i. apply For_lookup.
  - intros env p. apply sequence_For_children.
  - intros p i. apply For_lookup.
Qed.

(** ** Pointer events on a rendered Cell *)

(** The handlers of the Cell at position [(i, j, k)]: pointer-enter sets
    the Selection to that position, pointer-leave resets it. *)
Lemma rendered_handlers data m (i j k : nat) v :
  App data = Some m ->
  cell_at (view m) i j k = Some v ->
  onPointerOver v = hoverCell (Z.of_nat i) (Z.of_nat j) (Z.of_nat k) /\
  onPointerOut v = hoverReset.
Proof.
  intros Hm Hv.
  destruct (rendered_cell _ _ _ _ _ _ Hm Hv) as (tb & rw & cl & _ & _ & _ & HC).
  destruct (Cell_inv _ _ _ HC) as (a & acts & tp & rp & Ha & Ht & Hr & Hover & Hout & _).
  simpl in Ha, Ht, Hr. injection Ha as <- <-. injection Ht as <-. injection Hr as <-.
  rewrite Hover, Hout. split; reflexivity.
Qed.

Lemma pointer_enter_then_leave data m v st :
  App data = Some m ->
  v ∈ rendered_cells (view m) ->
  all_none (app (onPointerOut v (onPointerOver v st))).
Proof.
  intros Hm Hv. apply elem_of_rendered_cells in Hv as (i & j & k & Hv).
  destruct (rendered_handlers _ _ _ _ _ _ Hm Hv) as [-> ->]. repeat split.
Qed.

(** The scenario of the specification: pointer-enter on the second cell
    selects [(0, 0, 1)] and highlights that cell only; pointer-leave
    unselects. *)
Example scenario_second_cell :
  exists m c0 c1,
    App scenario = Some m /\
    view m = [[[c0; c1]]] /\
    text c1 = ["Table: T0"; "Row: R0"; "Cell: C1"] /\
    app (onPointerOver c1 (stores m)) = {| table := 0; row := 0; cell := 1 |} /\
    background c0 (onPointerOver c1 (stores m)) = "none" /\
    background c1 (onPointerOver c1 (stores m)) = "skyblue" /\
    app (onPointerOut c1 (onPointerOver c1 (stores m)))
      = {| table := -1; row := -1; cell := -1 |} /\
    background c0 (onPointerOut c1 (onPointerOver c1 (stores m))) = "none" /\
    background c1 (onPointerOut c1 (onPointerOver c1 (stores m))) = "none".
Proof.
  do 3 eexists. split; [reflexivity|]. split; [reflexivity|].
  repeat split.
Qed.

(** * Further properties of the component tree *)

(** ** Mounting *)

(** X1: [App] mounts every dataset, the empty one included: every Cell it
    constructs finds its three contexts.  The mounted state has no
    Selection and holds the dataset as given. *)
Theorem App_always_mounts :
  forall data : list TableSchema,
    exists m,
      App data = Some m /\
      app (stores m) = {| table := -1; row := -1; cell := -1 |} /\
      tables (stores m) = data /\
      length (view m) = length data.
Proof.
  intros data. destruct (App_total data) as (m & Hm & Hs).
  exists m. rewrite Hs. repeat split; [exact Hm|].
  unfold App in Hm. simpl in Hm.
  destruct (sequence _) as [vw|] eqn:Hvw; simpl in Hm; [|discriminate].
  injection Hm as <-. simpl. apply (sequence_For_length _ _ _ Hvw).
Qed.




(** X3: The Cell rendered for cell [k] of row [j] of table [i] exists and
    shows the names of that table, that row and that cell, which it reads
    from the Table context, the Row context and its own props. *)
Theorem rendered_cell_shows_its_names :
  forall (data : list TableSchema) (m : Mounted) (i j k : nat) tb rw cl,
    App data = Some m ->
    data !! i = Some tb -> rows tb !! j = Some rw -> cells rw !! k = Some cl ->
    exists v,
      cell_at (view m) i j k = Some v /\
      text v = ["Table: " +:+ t_name tb; "Row: " +:+ r_name rw; "Cell: " +:+ c_name cl].
Proof.
  intros data m i j k tb rw cl Hm Htb Hrw Hcl.
  destruct (rendered_cell_exists _ _ _ _ _ _ _ _ Hm Htb Hrw Hcl)
    as (tv & rv & v & Htv & Hrv & Hv).
  assert (Hat : cell_at (view m) i j k = Some v).
  { unfold cell_at. rewrite Htv. simpl. rewrite Hrv. simpl. exact Hv. }
  exists v. split; [exact Hat|].
  destruct (rendered_cell _ _ _ _ _ _ Hm Hat) as (tb' & rw' & cl' & Htb' & Hrw' & Hcl' & HC).
  assert (tb' = tb) by congruence. subst tb'.
  assert (rw' = rw) by congruence. subst rw'.
  assert (cl' = cl) by congruence. subst cl'.
  destruct (Cell_inv _ _ _ HC) as (a & acts & tp & rp & _ & Ht & Hr & _ & _ & _ & Htxt).
  simpl in Ht, Hr. injection Ht as <-. injection Hr as <-. exact Htxt.
Qed.

Lemma rendered_cell_shows_its_names_witness :
  exists m v,
    App scenario = Some m /\
    cell_at (view m) 0 0 1 = Some v /\
    text v = ["Table: T0"; "Row: R0"; "Cell: C1"].
Proof.
  eexists.
  destruct (rendered_cell_shows_its_names scenario _ 0 0 1 _ _ _
              eq_refl eq_refl eq_refl eq_refl) as (v & Hv & Ht).
  exists v. split; [reflexivity|]. split; [exact Hv|exact Ht].
Defined.

(** ** Highlighting in an arbitrary state *)

Lemma rendered_position_in_bounds data m (i j k : nat) v :
  App data = Some m ->
  cell_at (view m) i j k = Some v ->
  in_bounds data (Z.of_nat i) (Z.of_nat j) (Z.of_nat k).
Proof.
  intros Hm Hv.
  destruct (rendered_cell _ _ _ _ _ _ Hm Hv) as (tb & rw & cl & Htb & Hrw & Hcl & _).
  unfold in_bounds. rewrite !Nat2Z.id.
  repeat split; try lia. exists tb, rw, cl. auto.
Qed.

(** X4: Whatever the three Selection fields hold, at most one rendered Cell
    is highlighted: exactly one when they are the coordinate of a cell of
    the dataset, none otherwise (a negative, too large or partly reset
    coordinate highlights nothing). *)
Theorem at_most_one_highlighted :
  forall (data : list TableSchema) (m : Mounted) (st : Stores),
    App data = Some m ->
    (in_bounds data (table (app st)) (row (app st)) (cell (app st)) /\
     count_highlighted st (rendered_cells (view m)) = 1%nat)
    \/
    (~ in_bounds data (table (app st)) (row (app st)) (cell (app st)) /\
     count_highlighted st (rendered_cells (view m)) = 0%nat).
Proof.
  intros data m st Hm.
  destruct (filter (fun v => highlighted v st = true) (rendered_cells (view m)))
    as [|v l] eqn:Hf.
  - right. split.
    + intros Hb. destruct (count_highlighted_selected _ _ _ Hm Hb) as [_ Hc].
      unfold count_highlighted in Hc. rewrite Hf in Hc. discriminate.
    + unfold count_highlighted. rewrite Hf. reflexivity.
  - left.
    assert (Hv : v ∈ filter (fun v => highlighted v st = true) (rendered_cells (view m))).
    { rewrite Hf. left. }
    apply list_elem_of_filter in Hv as [Hh Hv].
    apply elem_of_rendered_cells in Hv as (i & j & k & Hat).
    destruct (proj1 (rendered_highlighted_iff _ _ _ _ _ _ _ Hm Hat) Hh)
      as (Ht & Hr & Hc).
    assert (Hb : in_bounds data (table (app st)) (row (app st)) (cell (app st))).
    { rewrite Ht, Hr, Hc. eapply rendered_position_in_bounds; eauto. }
    split; [exact Hb|]. apply (count_highlighted_selected _ _ _ Hm Hb).
Qed.

Lemma at_most_one_highlighted_witness :
  exists m,
    App scenario = Some m /\
    count_highlighted (hoverCell 0 0 2 (stores m)) (rendered_cells (view m)) = 0%nat.
Proof.
  eexists. split; [reflexivity|].
  match goal with
  | |- count_highlighted ?s _ = _ =>
      destruct (at_most_one_highlighted scenario _ s eq_refl) as [[Hb _]|[_ H]]
  end; [|exact H].
  destruct Hb as (_ & _ & _ & tb & rw & cl & H1 & H2 & H3).
  injection H1 as <-. injection H2 as <-. discriminate H3.
Defined.

(** ** The handlers of a rendered Cell *)

(** X5: Pointer-enter on the Cell rendered at position [(i, j, k)], from any
    state, sets the Selection to that position: that Cell is highlighted,
    it is the only one, and the dataset is untouched.  Pointer-leave on a
    rendered Cell, from any state, resets the Selection, also when another
    Cell was the highlighted one, and leaves no Cell highlighted. *)
Theorem pointer_handlers_of_rendered_cell :
  forall (data : list TableSchema) (m : Mounted) (i j k : nat) v (st : Stores),
    App data = Some m ->
    cell_at (view m) i j k = Some v ->
    app (onPointerOver v st)
      = {| table := Z.of_nat i; row := Z.of_nat j; cell := Z.of_nat k |} /\
    tables (onPointerOver v st) = tables st /\
    highlighted v (onPointerOver v st) = true /\
    count_highlighted (onPointerOver v st) (rendered_cells (view m)) = 1%nat /\
    app (onPointerOut v st) = {| table := -1; row := -1; cell := -1 |} /\
    tables (onPointerOut v st) = tables st /\
    count_highlighted (onPointerOut v st) (rendered_cells (view m)) = 0%nat.
Proof.
  intros data m i j k v st Hm Hv.
  destruct (rendered_handlers _ _ _ _ _ _ Hm Hv) as [-> ->].
  pose proof (rendered_position_in_bounds _ _ _ _ _ _ Hm Hv) as Hb.
  split; [reflexivity|]. split; [reflexivity|]. split.
  { apply (rendered_highlighted_iff _ _ _ _ _ _ _ Hm Hv). repeat split. }
  split.
  { apply (count_highlighted_selected data m
             (hoverCell (Z.of_nat i) (Z.of_nat j) (Z.of_nat k) st) Hm Hb). }
  split; [reflexivity|]. split; [reflexivity|].
  apply (count_highlighted_none data m (hoverReset st) Hm). repeat split.
Qed.

Lemma pointer_handlers_of_rendered_cell_witness :
  exists m v,
    App scenario = Some m /\
    cell_at (view m) 0 0 1 = Some v /\
    app (onPointerOver v (stores m)) = {| table := 0; row := 0; cell := 1 |}.
Proof.
  do 2 eexists. split; [reflexivity|]. split; [reflexivity|].
  refine (proj1 (pointer_handlers_of_rendered_cell scenario _ 0 0 1 _ _ eq_refl eq_refl)).
Defined.

(** ** Composition of the mutators *)

Lemma step_forgets st st' a : tables st = tables st' -> step st a = step st' a.
Proof.
  intros H. destruct a; unfold step, hoverCell, hoverReset, setApp, produce; simpl;
    rewrite H; reflexivity.
Qed.

Lemma run_snoc acts a st : run (acts ++ [a]) st = step (run acts st) a.
Proof. unfold run. rewrite fold_left_app. reflexivity. Qed.

(** X6: The last call wins: after any sequence of [hoverCell] and
    [hoverReset] calls the state is the one the last call alone gives
    from the starting state.  Neither mutator reads the Selection it
    overwrites, so entering a cell without having left the previous one
    leaves nothing of the previous one. *)
Theorem last_action_wins :
  forall (acts : list action) (a : action) (st : Stores),
    run (acts ++ [a]) st = step st a.
Proof.
  intros acts a st. rewrite run_snoc. apply step_forgets, tables_run.
Qed.

(** ** Pointer events delivered to rendered Cells *)





(** ** Which subtrees throw outside a provider *)

Lemma Cell_None_iff env props :
  Cell env props = None <->
  AppContext env = None \/ TableContext env = None \/ RowContext env = None.
Proof.
  unfold Cell, useApp, useTable, useRow.
  destruct (AppContext env) as [[a acts]|]; simpl; [|tauto].
  destruct (TableContext env) as [tp|]; simpl; [|tauto].
  destruct (RowContext env) as [rp|]; simpl; [|tauto].
  split; [discriminate|]. intros [H|[H|H]]; discriminate.
Qed.

Lemma sequence_For_None {A B : Type} (each : list A) (body : A -> Z -> option B) :
  sequence (For each body) = None <->
  exists (i : nat) x, each !! i = Some x /\ body x (Z.of_nat i) = None.
Proof.
  unfold sequence. rewrite mapM_None, Exists_exists. split.
  - intros (o & Ho & Hn). simpl in Hn. subst o.
    apply list_elem_of_lookup in Ho as (i & Hi). rewrite For_lookup in Hi.
    destruct (each !! i) as [x|] eqn:Hx; simpl in Hi; [|discriminate].
    exists i, x. split; [exact Hx|]. congruence.
  - intros (i & x & Hx & Hb). exists None. split; [|reflexivity].
    apply list_elem_of_lookup. exists i. rewrite For_lookup, Hx. simpl.
    congruence.
Qed.

Lemma Row_None_iff env props :
  Row env props = None <->
  cells (schema props) <> [] /\ (AppContext env = None \/ TableContext env = None).
Proof.
  unfold Row. rewrite sequence_For_None. split.
  - intros (i & x & Hx & Hc). split.
    + intros Hnil. rewrite Hnil in Hx. discriminate.
    + apply Cell_None_iff in Hc as [H|[H|H]]; simpl in H; auto. discriminate.
  - intros [Hne Hctx]. destruct (cells (schema props)) as [|x l]; [congruence|].
    exists 0%nat, x. split; [reflexivity|].
    apply Cell_None_iff. simpl. tauto.
Qed.

(** X8: [Row] and [Table] read no context themselves, only the Cells do.  So
    a Row throws exactly when it has at least one cell and the App or the
    Table context is missing, and a Table exactly when one of its rows has
    at least one cell and the App context is missing; a Row without cells
    and a Table without rows are constructed, empty, in any scope. *)
Theorem subtree_throws_iff :
  forall (env : Scope),
    (forall props : Props RowSchema,
       Row env props = None <->
       cells (schema props) <> [] /\
       (AppContext env = None \/ TableContext env = None)) /\
    (forall props : Props TableSchema,
       Table env props = None <->
       AppContext env = None /\
       exists rw, rw ∈ rows (schema props) /\ cells rw <> []) /\
    (forall i n, Row env (mergeProps i {| r_name := n; cells := [] |}) = Some []) /\
    (forall i n, Table env (mergeProps i {| t_name := n; rows := [] |}) = Some []).
Proof.
  intros env. split; [intros props; apply Row_None_iff|].
  split; [|split; reflexivity].
  intros props. unfold Table. rewrite sequence_For_None. split.
  - intros (i & rw & Hrw & HR). apply Row_None_iff in HR as [Hne [Ha|Ht]];
      simpl in *; [|discriminate].
    split; [exact Ha|]. exists rw. split; [|exact Hne].
    eapply list_elem_of_lookup_2; eauto.
  - intros (Ha & rw & Hrw & Hne). apply list_elem_of_lookup in Hrw as (i & Hi).
    exists i, rw. split; [exact Hi|]. apply Row_None_iff. simpl. auto.
Qed.

(** ** A Row in any scope *)

(** X9: A Row constructed in any scope that has an App and a Table context,
    with any props: its Cell at position [k] calls [hoverCell] with the
    index of the ambient Table, the index in the Row's own props and [k],
    calls [hoverReset] on leave, and is highlighted exactly when the
    Selection read through the App context is these three numbers. *)
Theorem Row_cells_use_ambient_identity :
  forall (env : Scope) (props : Props RowSchema) a acts tp vs (k : nat) v,
    AppContext env = Some (a, acts) ->
    TableContext env = Some tp ->
    Row env props = Some vs ->
    vs !! k = Some v ->
    onPointerOver v = act_hoverCell acts (index tp) (index props) (Z.of_nat k) /\
    onPointerOut v = act_hoverReset acts /\
    (forall st,
       highlighted v st = true <->
       table (a st) = index tp /\ row (a st) = index props /\
       cell (a st) = Z.of_nat k).
Proof.
  intros env props a acts tp vs k v Ha Ht HR Hk.
  destruct (sequence_For_lookup _ _ _ _ _ HR Hk) as (cl & _ & HC).
  destruct (Cell_inv _ _ _ HC) as (a' & acts' & tp' & rp' & Ha' & Ht' & Hr' & Hover & Hout & Hh & _).
  simpl in Ha', Ht', Hr'. rewrite Ha in Ha'. rewrite Ht in Ht'.
  injection Ha' as <- <-. injection Ht' as <-. injection Hr' as <-.
  split; [exact Hover|]. split; [exact Hout|].
  intros st. rewrite Hh. simpl. rewrite eqb3_true. intuition congruence.
Qed.

Lemma Row_cells_use_ambient_identity_witness :
  exists vs v,
    Row (TableContext_Provider (mergeProps 7 table_a)
           (AppContext_Provider (app, actions) no_scope)) (mergeProps 5 row_a) = Some vs /\
    vs !! 0%nat = Some v /\
    onPointerOver v = hoverCell 7 5 0.
Proof.
  do 2 eexists. split; [reflexivity|]. split; [reflexivity|].
  refine (proj1 (Row_cells_use_ambient_identity
                   (TableContext_Provider (mergeProps 7 table_a)
                      (AppContext_Provider (app, actions) no_scope))
                   (mergeProps 5 row_a) app actions (mergeProps 7 table_a) _ 0%nat _
                   eq_refl eq_refl eq_refl eq_refl)).
Defined.
